(** * urlshort: the redirect handlers of [handlers/handler.go]

    A shallow embedding of the Go package [handlers] and the properties of
    its four handler constructors: [MapHandler], [YAMLHandler],
    [JSONHandler] and [DBHandler].

    Go maps with string keys are stdpp [gmap string string]; a nil map and
    an empty map read alike, and so do a nil and an empty slice, so both are
    the empty value here.  The libraries the package calls (net/http, fmt,
    log, yaml.v2, encoding/json, gorm) are not part of the package: what the
    package calls on them is either recorded as an event or taken as a
    parameter of the development.  Where a property depends on how gorm
    reads a struct condition, the module [gorm] gives that rule over an
    in-memory table. *)

From Stdlib Require Import ZArith Ascii.
From stdpp Require Import base option list strings gmap fin_maps.

Local Open Scope string_scope.
Local Open Scope list_scope.

(** ** net/url *)

Module url.

(** The part of [url.URL] a handler can read. *)
Record URL := mkURL {
  Path : string;
  RawQuery : string
}.

End url.

(** ** net/http *)

Module http.

(** The part of [http.Request] a handler can read.  A handler receives a
    pointer to the request; none of the handlers below assigns through
    it, so the pointer is modelled by the value. *)
Record Request := mkRequest {
  Method : string;
  URL : url.URL;
  Host : string
}.

Definition StatusOK : Z := 200%Z.
Definition StatusMovedPermanently : Z := 301%Z.
Definition StatusFound : Z := 302%Z.
Definition StatusNotFound : Z := 404%Z.

(** What has been done to a response: the calls made on the
    [http.ResponseWriter], oldest first.  [CRedirect] is the library call
    [http.Redirect(w, r, url, code)], kept whole. *)
Inductive Call :=
| CSetHeader (key value : string)
| CWriteHeader (statusCode : Z)
| CWrite (data : string)
| CRedirect (r : Request) (url : string) (code : Z).

Definition ResponseWriter := list Call.

Definition Write (w : ResponseWriter) (data : string) : ResponseWriter :=
  w ++ [CWrite data].

Definition WriteHeader (w : ResponseWriter) (statusCode : Z) : ResponseWriter :=
  w ++ [CWriteHeader statusCode].

Definition Redirect (w : ResponseWriter) (r : Request) (url : string) (code : Z)
  : ResponseWriter :=
  w ++ [CRedirect r url code].

(** The status line a response ends up with, as net/http documents it: the
    first [WriteHeader] fixes it, [http.Redirect] writes the header with
    its code, and a [Write] before any [WriteHeader] sends [StatusOK].
    Setting a header field sends nothing. *)
Fixpoint statusCode (w : ResponseWriter) : option Z :=
  match w with
  | [] => None
  | CSetHeader _ _ :: w' => statusCode w'
  | CWriteHeader c :: _ => Some c
  | CWrite _ :: _ => Some StatusOK
  | CRedirect _ _ c :: _ => Some c
  end.

(** The [http.Redirect] calls recorded in a response. *)
Definition isRedirect (c : Call) : bool :=
  match c with CRedirect _ _ _ => true | _ => false end.

Definition redirects (w : ResponseWriter) : list Call :=
  List.filter isRedirect w.

(** [http.Handler] is the interface with the one method [ServeHTTP]. *)
Record Handler := mkHandler {
  ServeHTTP : ResponseWriter → Request → ResponseWriter
}.

(** [http.HandlerFunc] is a function type; its [ServeHTTP] calls the
    function. *)
Definition HandlerFunc := ResponseWriter → Request → ResponseWriter.

Definition HandlerFunc_Handler (f : HandlerFunc) : Handler :=
  {| ServeHTTP := f |}.

End http.

Coercion http.HandlerFunc_Handler : http.HandlerFunc >-> http.Handler.

(** ** fmt and log *)

Module fmt.

(** [fmt.Sprintln]: the operands in their default format, a space between
    any two of them and a newline at the end. *)
Fixpoint Sprintln (operands : list string) : string :=
  match operands with
  | [] => String "010"%char ""
  | [a] => a +:+ String "010"%char ""
  | a :: rest => a +:+ " " +:+ Sprintln rest
  end.

(** [fmt.Fprintf(w, format, ...)] writes the formatted text with one
    [Write]; the caller passes the text already formatted. *)
Definition Fprintf (w : http.ResponseWriter) (formatted : string)
  : http.ResponseWriter :=
  http.Write w formatted.

End fmt.

Module log.

(** The standard logger: the lines it was given, oldest first (the
    prefix and the time stamp the logger adds are left out). *)
Definition Logger := list string.

Definition Println (l : Logger) (operands : list string) : Logger :=
  l ++ [fmt.Sprintln operands].

End log.

(** ** package handlers *)

(** [m[k]] on a [map[string]string]: the zero value [""] when [k] is not a
    key. *)
Definition index (m : gmap string string) (k : string) : string :=
  default "" (m !! k).

(** [MapHandler], handler.go lines 20 to 29. *)
Definition MapHandler (pathsToUrls : gmap string string) (fallback : http.Handler)
  : http.HandlerFunc :=
  λ w r,
    match pathsToUrls !! url.Path (http.URL r) with
    | Some path => http.Redirect w r path http.StatusFound
    | None => http.ServeHTTP fallback w r
    end.

(** The [for ... range] loop of [buildMap], handler.go lines 125 to 128. *)
Fixpoint buildMap_loop (mergedMap : gmap string string)
    (parsedYaml : list (gmap string string)) : gmap string string :=
  match parsedYaml with
  | [] => mergedMap
  | entry :: rest =>
      let key := index entry "path" in
      buildMap_loop (<[key := index entry "url"]> mergedMap) rest
  end.

(** [buildMap], handler.go lines 123 to 130. *)
Definition buildMap (parsedYaml : list (gmap string string)) : gmap string string :=
  buildMap_loop ∅ parsedYaml.

(** The record type [urlmap] declared in [DBHandler], handler.go lines 84
    to 87. *)
Record urlmap := mkUrlmap {
  Shortpath : string;
  URL : string
}.

Section Package.

(** Go's [error] interface: values compared with [==], and the method
    [Error() string].  A nil error is [None]. *)
Context {error : Type} `{EqDecision error}.
Variable Error : error → string.

(** [yaml.Unmarshal(in, &dst)] at [dst : []map[string]string] and
    [json.Unmarshal(data, &dst)] at [dst : map[string]string], both from a
    nil [dst]: the value [dst] holds after the call, and the error
    returned. *)
Variable yamlV2_Unmarshal : list Byte.byte → list (gmap string string) * option error.
Variable json_Unmarshal : list Byte.byte → gmap string string * option error.

(** The handle [*gorm.DB], through the two calls made on it:
    [db.AutoMigrate(&urlmap{}).Error], and [db.Where(cond).First(&dst)]
    from a zero [dst] (the value [dst] holds after the call, and
    [.Error]).  [gorm.ErrRecordNotFound] is the error [First] gives when
    no row matches. *)
Context {DB : Type}.
Variable AutoMigrate_Error : DB → option error.
Variable Where_First : DB → urlmap → urlmap * option error.
Variable ErrRecordNotFound : error.

(** [parseYAML], handler.go lines 110 to 115. *)
Definition parseYAML (yaml : list Byte.byte)
  : list (gmap string string) * option error :=
  let '(dst, err) := yamlV2_Unmarshal yaml in
  match err with
  | Some err => ([], Some err)
  | None => (dst, None)
  end.

(** [parseJSON], handler.go lines 117 to 122. *)
Definition parseJSON (jsonData : list Byte.byte)
  : gmap string string * option error :=
  let '(dst, err) := json_Unmarshal jsonData in
  match err with
  | Some err => (∅, Some err)
  | None => (dst, None)
  end.

(** [YAMLHandler], handler.go lines 47 to 54.  A nil [http.HandlerFunc] is
    [None]. *)
Definition YAMLHandler (yaml : list Byte.byte) (fallback : http.Handler)
  : option http.HandlerFunc * option error :=
  let '(parsedYaml, err) := parseYAML yaml in
  match err with
  | Some err => (None, Some err)
  | None =>
      let pathMap := buildMap parsedYaml in
      (Some (MapHandler pathMap fallback), None)
  end.

(** [JSONHandler], handler.go lines 73 to 79. *)
Definition JSONHandler (jsonData : list Byte.byte) (fallback : http.Handler)
  : option http.HandlerFunc * option error :=
  let '(parsedJSON, err) := parseJSON jsonData in
  match err with
  | Some err => (None, Some err)
  | None => (Some (MapHandler parsedJSON fallback), None)
  end.

(** The closure [DBHandler] returns, handler.go lines 92 to 108. *)
Definition DBHandler_func (db : DB) (fallback : http.Handler) : http.HandlerFunc :=
  λ w r,
    let urlMap := {| Shortpath := url.Path (http.URL r); URL := "" |} in
    let '(dst, err) := Where_First db urlMap in
    match err with
    | Some err =>
        if decide (err = ErrRecordNotFound)
        then http.ServeHTTP fallback w r
        else fmt.Fprintf w ("Unexpected error: " +:+ Error err)
    | None => http.Redirect w r (URL dst) http.StatusMovedPermanently
    end.

(** [DBHandler], handler.go lines 83 to 109.  The standard logger is the
    one piece of state construction touches; it is passed in and out. *)
Definition DBHandler (db : DB) (fallback : http.Handler) (std : log.Logger)
  : (option http.HandlerFunc * option error) * log.Logger :=
  let std :=
    match AutoMigrate_Error db with
    | Some err => log.Println std ["Gorm error: "; Error err]
    | None => std
    end in
  ((Some (DBHandler_func db fallback), None), std).

End Package.

(** ** The merge as the specification words it *)

(** A YAML entry as the specification describes it: a record with a [path]
    field and a [url] field. *)
Record YamlRecord := mkYamlRecord {
  rec_path : string;
  rec_url : string
}.

(** The record a decoded entry stands for: a field that is missing reads as
    the empty string. *)
Definition decode_record (entry : gmap string string) : YamlRecord :=
  {| rec_path := index entry "path"; rec_url := index entry "url" |}.

(** "Iterate in document order, and for each record set
    [mapping[path] = url]". *)
Definition fold_records (records : list YamlRecord) : gmap string string :=
  foldl (λ mapping rc, <[rec_path rc := rec_url rc]> mapping) ∅ records.

(** The url of the last record of the document whose path is [p]. *)
Definition last_url (p : string) (records : list YamlRecord) : option string :=
  rec_url <$> last (filter (λ rc, rec_path rc = p) records).

(** ** The invariant as the specification words it *)

(** "Every produced handler either redirects or delegates to fallback": on
    this request, what the handler [h] with fallback [fallback] does to the
    response is one [http.Redirect], or is what the fallback does to it. *)
Definition redirects_or_delegates (h : http.HandlerFunc) (fallback : http.Handler)
    (w : http.ResponseWriter) (r : http.Request) : Prop :=
  (∃ u code, h w r = http.Redirect w r u code)
  ∨ h w r = http.ServeHTTP fallback w r.

(** ** Documents seen from the mapping *)

(** The paths of a decoded sequence, in document order. *)
Definition paths (parsedYaml : list (gmap string string)) : list string :=
  (λ entry, index entry "path") <$> parsedYaml.

(** The YAML entry [{path: k, url: v}] for a pair of a JSON object. *)
Definition entry_of (kv : string * string) : gmap string string :=
  {[ "path" := kv.1; "url" := kv.2 ]}.

(** ** Stand-ins for the libraries, for the examples *)

Module Fixture.

(** A small error type: two decode errors, gorm's not-found error, and two
    other database errors. *)
Inductive err :=
| BadYAML
| BadJSON
| RecordNotFound
| ConnRefused
| NoSuchTable.

#[global] Instance err_eq_dec : EqDecision err.
Proof. solve_decision. Defined.

Definition Error (e : err) : string :=
  match e with
  | BadYAML => "yaml: unmarshal errors"
  | BadJSON => "invalid character"
  | RecordNotFound => "record not found"
  | ConnRefused => "dial tcp: connection refused"
  | NoSuchTable => "no such table: urlmaps"
  end.

Definition quote : string := String (ascii_of_nat 34) "".

(** Three YAML documents and one JSON document. *)
Definition yaml_one : string := "[{path: /a, url: X}]".
Definition yaml_dup : string := "[{path: /a, url: X}, {path: /a, url: Y}]".
Definition yaml_nopath : string := "[{url: X}]".
Definition json_one : string :=
  "{" +:+ quote +:+ "/a" +:+ quote +:+ ":" +:+ quote +:+ "X" +:+ quote +:+ "}".

(** A decoder that knows the three documents and rejects the rest. *)
Definition yaml_Unmarshal (yaml : list Byte.byte)
  : list (gmap string string) * option err :=
  let doc := String.string_of_list_byte yaml in
  if decide (doc = yaml_one) then
    ([ {[ "path" := "/a"; "url" := "X" ]} ], None)
  else if decide (doc = yaml_dup) then
    ([ {[ "path" := "/a"; "url" := "X" ]}; {[ "path" := "/a"; "url" := "Y" ]} ], None)
  else if decide (doc = yaml_nopath) then
    ([ {[ "url" := "X" ]} ], None)
  else ([], Some BadYAML).

Definition json_Unmarshal (jsonData : list Byte.byte)
  : gmap string string * option err :=
  if decide (String.string_of_list_byte jsonData = json_one) then
    ({[ "/a" := "X" ]}, None)
  else (∅, Some BadJSON).

(** An in-memory database: the rows of the table, the error of the
    migration, and the error every query meets (if any). *)
Record DB := mkDB {
  rows : list urlmap;
  migrate_error : option err;
  query_error : option err
}.

Definition zero : urlmap := {| Shortpath := ""; URL := "" |}.

(** [Where(cond).First(&dst)]: the first row with the short path of the
    condition. *)
Definition Where_First (db : DB) (cond : urlmap) : urlmap * option err :=
  match query_error db with
  | Some e => (zero, Some e)
  | None =>
      match List.find (λ row, bool_decide (Shortpath row = Shortpath cond)) (rows db) with
      | Some row => (row, None)
      | None => (zero, Some RecordNotFound)
      end
  end.

Definition request (path : string) : http.Request :=
  {| http.Method := "GET";
     http.URL := {| url.Path := path; url.RawQuery := "" |};
     http.Host := "localhost:8080" |}.

(** A fallback that answers 404 in plain text. *)
Definition notFound : http.HandlerFunc :=
  λ w r, http.Write (http.WriteHeader w http.StatusNotFound) "404 page not found".

Definition table_b : DB :=
  {| rows := [ {| Shortpath := "/b"; URL := "Z" |} ];
     migrate_error := None; query_error := None |}.

Definition table_down : DB :=
  {| rows := [ {| Shortpath := "/b"; URL := "Z" |} ];
     migrate_error := None; query_error := Some ConnRefused |}.

Definition table_unmigrated : DB :=
  {| rows := []; migrate_error := Some NoSuchTable; query_error := Some NoSuchTable |}.

End Fixture.

(** Decoders for the empty documents: YAML [[]] and JSON [{}]. *)

Module Sample.

Definition yaml_Unmarshal (yaml : list Byte.byte)
  : list (gmap string string) * option Fixture.err :=
  if decide (String.string_of_list_byte yaml = "[]") then ([], None)
  else ([], Some Fixture.BadYAML).

Definition json_Unmarshal (jsonData : list Byte.byte)
  : gmap string string * option Fixture.err :=
  if decide (String.string_of_list_byte jsonData = "{}") then (∅, None)
  else (∅, Some Fixture.BadJSON).

(** Two entries with different paths; the second carries a field the
    package never reads. *)
Definition two_entries : list (gmap string string) :=
  [ {[ "path" := "/a"; "url" := "X" ]};
    {[ "path" := "/b"; "url" := "Z"; "note" := "beta" ]} ].

End Sample.

(** ** gorm's struct conditions *)

Module gorm.

(** [db.Where(cond)] with a struct [cond], as gorm documents it: only the
    non-zero fields of [cond] are compared; a field left at its zero value,
    the empty string here, puts no condition on the rows. *)
Definition matches (cond row : urlmap) : bool :=
  (bool_decide (Shortpath cond = "") || bool_decide (Shortpath row = Shortpath cond))
  && (bool_decide (URL cond = "") || bool_decide (URL row = URL cond)).

(** [db.Where(cond).First(&dst)] over the in-memory database: the error the
    query meets, if any; else the first row that matches, in the order the
    table returns its rows ([urlmap] has no primary key to order by); and
    gorm's not-found error when no row matches. *)
Definition Where_First (db : Fixture.DB) (cond : urlmap)
  : urlmap * option Fixture.err :=
  match Fixture.query_error db with
  | Some e => (Fixture.zero, Some e)
  | None =>
      match List.find (matches cond) (Fixture.rows db) with
      | Some row => (row, None)
      | None => (Fixture.zero, Some Fixture.RecordNotFound)
      end
  end.

End gorm.

(** ** Helper lemmas *)

Lemma Redirect_neq_self (w : http.ResponseWriter) r u c : http.Redirect w r u c ≠ w.
Proof.
  unfold http.Redirect. intros Heq.
  apply (f_equal length) in Heq. rewrite length_app in Heq. simpl in Heq. lia.
Qed.

Lemma buildMap_loop_app (m : gmap string string) (l1 l2 : list (gmap string string)) :
  buildMap_loop m (l1 ++ l2) = buildMap_loop (buildMap_loop m l1) l2.
Proof.
  revert m. induction l1 as [|e l1 IH]; intros m; simpl; [done|]. apply IH.
Qed.

Lemma buildMap_loop_fold (m : gmap string string) (l : list (gmap string string)) :
  buildMap_loop m l =
  foldl (λ mapping rc, <[rec_path rc := rec_url rc]> mapping) m (decode_record <$> l).
Proof.
  revert m. induction l as [|e l IH]; intros m; simpl; [done|]. apply IH.
Qed.

Lemma last_url_cons (p : string) (rc : YamlRecord) (l : list YamlRecord) :
  last_url p (rc :: l) =
  match last_url p l with
  | Some u => Some u
  | None => if decide (rec_path rc = p) then Some (rec_url rc) else None
  end.
Proof.
  unfold last_url. rewrite filter_cons.
  destruct (decide (rec_path rc = p)) as [Hp|Hp]; [|by destruct (last _)].
  rewrite last_cons. by destruct (last _).
Qed.

Lemma buildMap_loop_lookup (m : gmap string string) (l : list (gmap string string))
    (p : string) :
  buildMap_loop m l !! p =
  match last_url p (decode_record <$> l) with
  | Some u => Some u
  | None => m !! p
  end.
Proof.
  revert m. induction l as [|e l IH]; intros m; [done|].
  rewrite fmap_cons, last_url_cons. cbn [buildMap_loop]. rewrite IH.
  destruct (last_url p (decode_record <$> l)) as [u|]; [done|].
  simpl. destruct (decide (index e "path" = p)) as [<-|Hne].
  - by rewrite lookup_insert_eq.
  - by rewrite lookup_insert_ne.
Qed.

Lemma last_url_none (p : string) (l : list (gmap string string)) :
  Forall (λ e, index e "path" ≠ p) l → last_url p (decode_record <$> l) = None.
Proof.
  induction 1 as [|e l Hne _ IH]; [done|].
  rewrite fmap_cons, last_url_cons, IH. simpl. by rewrite decide_False.
Qed.

(** A record is written at its path unless a later record has that path. *)
Lemma buildMap_lookup_mid (pre post : list (gmap string string)) (e : gmap string string) :
  Forall (λ e', index e' "path" ≠ index e "path") post →
  buildMap (pre ++ e :: post) !! index e "path" = Some (index e "url").
Proof.
  intros Hpost. unfold buildMap.
  rewrite buildMap_loop_app. simpl. rewrite buildMap_loop_lookup.
  rewrite (last_url_none _ _ Hpost). by rewrite lookup_insert_eq.
Qed.

(** ** The static map handler *)

(** C1.  Whatever the mapping [M], the fallback [F], the response so far and
    the request: when the request path [p] is a key of [M] the handler makes
    the one call [http.Redirect] to [M[p]] with [StatusFound] (302); when it
    is not, the handler's result is that of [F.ServeHTTP] on the same
    response and the same request, the handler adding nothing of its own;
    and the handler is the redirecting one, whatever its fallback, exactly
    when [p] is a key of [M]. *)
Theorem MapHandler_redirects_iff_key (M : gmap string string) (F : http.Handler)
    (w : http.ResponseWriter) (r : http.Request) :
  let p := url.Path (http.URL r) in
  (∀ u, M !! p = Some u →
        MapHandler M F w r = http.Redirect w r u http.StatusFound)
  ∧ (M !! p = None → MapHandler M F w r = http.ServeHTTP F w r)
  ∧ (p ∈ dom M ↔
     ∃ u, ∀ F' : http.Handler,
       MapHandler M F' w r = http.Redirect w r u http.StatusFound).
Proof.
  intros p. unfold MapHandler. fold p. split; [|split; [|split]].
  - intros u Hu. by rewrite Hu.
  - intros Hnone. by rewrite Hnone.
  - intros [u Hu]%elem_of_dom. exists u. intros F'. by rewrite Hu.
  - intros [u Hu]. apply elem_of_dom.
    destruct (M !! p) as [u'|] eqn:Hp; [by eexists|].
    specialize (Hu (http.HandlerFunc_Handler (λ w _, w))). simpl in Hu.
    symmetry in Hu. by apply Redirect_neq_self in Hu.
Qed.

(** The end-to-end scenario of the specification: over [{"/go": "https://go.dev"}]
    with a 404 fallback, [/go] is redirected and [/rust] gets the 404. *)
Lemma MapHandler_redirects_iff_key_witness :
  let M : gmap string string := {[ "/go" := "https://go.dev" ]} in
  MapHandler M Fixture.notFound [] (Fixture.request "/go")
    = [http.CRedirect (Fixture.request "/go") "https://go.dev" 302%Z]
  ∧ MapHandler M Fixture.notFound [] (Fixture.request "/rust")
    = [http.CWriteHeader 404%Z; http.CWrite "404 page not found"].
Proof.
  intros M. split.
  - apply (MapHandler_redirects_iff_key M Fixture.notFound [] (Fixture.request "/go")).
    reflexivity.
  - apply (MapHandler_redirects_iff_key M Fixture.notFound [] (Fixture.request "/rust")).
    reflexivity.
Defined.

(** ** The YAML merge *)

(** C3.  The mapping [buildMap] builds from a decoded sequence is the fold
    that goes through the records in document order setting
    [mapping[path] = url]; so what it holds at a path is the url of the last
    record with that path (last write wins); and from
    [[{path: /a, url: X}, {path: /a, url: Y}]] it holds [Y] at [/a]. *)
Theorem buildMap_is_fold_last_write_wins (parsedYaml : list (gmap string string)) :
  buildMap parsedYaml = fold_records (decode_record <$> parsedYaml)
  ∧ (∀ p, buildMap parsedYaml !! p = last_url p (decode_record <$> parsedYaml))
  ∧ buildMap [ {[ "path" := "/a"; "url" := "X" ]}; {[ "path" := "/a"; "url" := "Y" ]} ]
      !! "/a" = Some "Y".
Proof.
  split; [|split].
  - apply buildMap_loop_fold.
  - intros p. unfold buildMap. rewrite buildMap_loop_lookup.
    by destruct (last_url _ _).
  - reflexivity.
Qed.

(** ** The YAML and JSON adapters *)

Section Adapters.

Context {error : Type}.
Variable yamlV2_Unmarshal : list Byte.byte → list (gmap string string) * option error.
Variable json_Unmarshal : list Byte.byte → gmap string string * option error.

Lemma YAMLHandler_ok yaml F dst :
  yamlV2_Unmarshal yaml = (dst, None) →
  YAMLHandler yamlV2_Unmarshal yaml F = (Some (MapHandler (buildMap dst) F), None).
Proof. intros Hd. unfold YAMLHandler, parseYAML. by rewrite Hd. Qed.

Lemma YAMLHandler_err yaml F dst e :
  yamlV2_Unmarshal yaml = (dst, Some e) →
  YAMLHandler yamlV2_Unmarshal yaml F = (None, Some e).
Proof. intros Hd. unfold YAMLHandler, parseYAML. by rewrite Hd. Qed.

Lemma JSONHandler_ok jsonData F dst :
  json_Unmarshal jsonData = (dst, None) →
  JSONHandler json_Unmarshal jsonData F = (Some (MapHandler dst F), None).
Proof. intros Hd. unfold JSONHandler, parseJSON. by rewrite Hd. Qed.

Lemma JSONHandler_err jsonData F dst e :
  json_Unmarshal jsonData = (dst, Some e) →
  JSONHandler json_Unmarshal jsonData F = (None, Some e).
Proof. intros Hd. unfold JSONHandler, parseJSON. by rewrite Hd. Qed.

(** C4.  When the decoder rejects the input with an error [e],
    [YAMLHandler] and [JSONHandler] return that same [e] and a nil
    handler; and each returns a handler, and a nil error, exactly when the
    decoder returned no error. *)
Theorem decode_error_is_returned_without_handler
    (yaml jsonData : list Byte.byte) (F : http.Handler) :
  (∀ dst e, yamlV2_Unmarshal yaml = (dst, Some e) →
            YAMLHandler yamlV2_Unmarshal yaml F = (None, Some e))
  ∧ (∀ dst e, json_Unmarshal jsonData = (dst, Some e) →
              JSONHandler json_Unmarshal jsonData F = (None, Some e))
  ∧ (is_Some (YAMLHandler yamlV2_Unmarshal yaml F).1 ↔ (yamlV2_Unmarshal yaml).2 = None)
  ∧ ((YAMLHandler yamlV2_Unmarshal yaml F).2 = None ↔ (yamlV2_Unmarshal yaml).2 = None)
  ∧ (is_Some (JSONHandler json_Unmarshal jsonData F).1 ↔ (json_Unmarshal jsonData).2 = None)
  ∧ ((JSONHandler json_Unmarshal jsonData F).2 = None ↔ (json_Unmarshal jsonData).2 = None).
Proof.
  split; [|split]; [intros dst e; apply YAMLHandler_err
                   |intros dst e; apply JSONHandler_err|].
  destruct (yamlV2_Unmarshal yaml) as [dy [ey|]] eqn:Hy;
    destruct (json_Unmarshal jsonData) as [dj [ej|]] eqn:Hj;
    rewrite ?(YAMLHandler_ok _ F _ Hy), ?(YAMLHandler_err _ F _ _ Hy),
            ?(JSONHandler_ok _ F _ Hj), ?(JSONHandler_err _ F _ _ Hj); simpl;
    repeat split; try done; try (intros []; done); eauto.
Qed.

(** C8.  When the JSON document decodes to the object [{p: u}] and the
    YAML document to the one-record sequence [[{path: p, url: u}]], both
    adapters return a handler and no error, the two handlers give the same
    response on every request, both redirect a request for [p] to [u] with
    [StatusFound], and both hand any other request to the fallback. *)
Theorem JSON_and_YAML_handlers_equivalent (p u : string)
    (yaml jsonData : list Byte.byte) (F : http.Handler) :
  yamlV2_Unmarshal yaml = ([ {[ "path" := p; "url" := u ]} ], None) →
  json_Unmarshal jsonData = ({[ p := u ]}, None) →
  ∃ hy hj,
    YAMLHandler yamlV2_Unmarshal yaml F = (Some hy, None)
    ∧ JSONHandler json_Unmarshal jsonData F = (Some hj, None)
    ∧ (∀ w r, hy w r = hj w r)
    ∧ (∀ w r, url.Path (http.URL r) = p →
              hy w r = http.Redirect w r u http.StatusFound
              ∧ hj w r = http.Redirect w r u http.StatusFound)
    ∧ (∀ w r, url.Path (http.URL r) ≠ p →
              hy w r = http.ServeHTTP F w r ∧ hj w r = http.ServeHTTP F w r).
Proof.
  intros Hy Hj. eexists _, _.
  split; [by apply YAMLHandler_ok|]. split; [by apply JSONHandler_ok|].
  assert (Hmap : buildMap [ ({[ "path" := p; "url" := u ]} : gmap string string) ]
                 = {[ p := u ]}).
  { unfold buildMap, buildMap_loop, index.
    rewrite lookup_insert_eq, lookup_insert_ne, lookup_singleton_eq by done.
    simpl. apply insert_empty. }
  rewrite Hmap. split; [done|]. unfold MapHandler. split.
  - intros w r ->. by rewrite lookup_singleton_eq.
  - intros w r Hne. by rewrite lookup_singleton_ne.
Qed.

(** C9.  Take a decoded sequence with an entry [e] in which [path] or
    [url] is missing.  The missing field reads as the empty string; the
    adapter still returns its handler and no error; [e] is merged by the
    same step as any entry, [mapping[path] = url] after the entries before
    it and before the entries after it; and when it is [path] that is
    missing, the empty string is a key of the mapping, and a request whose
    path is empty is redirected to the url of [e], unless an entry after
    [e] also has an empty path and overrides it as it would any entry. *)
Theorem missing_field_is_merged_as_empty_string
    (yaml : list Byte.byte) (pre post : list (gmap string string))
    (e : gmap string string) (F : http.Handler) :
  yamlV2_Unmarshal yaml = (pre ++ e :: post, None) →
  e !! "path" = None ∨ e !! "url" = None →
  let mapping := buildMap (pre ++ e :: post) in
  (e !! "path" = None → rec_path (decode_record e) = "")
  ∧ (e !! "url" = None → rec_url (decode_record e) = "")
  ∧ YAMLHandler yamlV2_Unmarshal yaml F = (Some (MapHandler mapping F), None)
  ∧ mapping = buildMap_loop (<[rec_path (decode_record e) := rec_url (decode_record e)]>
                               (buildMap pre)) post
  ∧ (e !! "path" = None →
     "" ∈ dom mapping
     ∧ (Forall (λ e', index e' "path" ≠ "") post →
        ∀ w r, url.Path (http.URL r) = "" →
               MapHandler mapping F w r
               = http.Redirect w r (rec_url (decode_record e)) http.StatusFound)).
Proof.
  intros Hy _ mapping.
  assert (Hpath : e !! "path" = None → index e "path" = "").
  { intros Hp. unfold index. by rewrite Hp. }
  split; [done|]. split; [intros Hu; simpl; unfold index; by rewrite Hu|].
  split; [by apply YAMLHandler_ok|].
  split; [unfold mapping, buildMap; by rewrite buildMap_loop_app|].
  intros Hp. split.
  - apply elem_of_dom. unfold mapping, buildMap.
    rewrite buildMap_loop_app. simpl. rewrite buildMap_loop_lookup.
    destruct (last_url _ _); [by eexists|].
    rewrite (Hpath Hp), lookup_insert_eq. by eexists.
  - intros Hpost w r Hr. unfold MapHandler, mapping. rewrite Hr.
    pose proof (buildMap_lookup_mid pre post e) as Hl.
    rewrite (Hpath Hp) in Hl. by rewrite (Hl Hpost).
Qed.

End Adapters.

(** A document neither stand-in decoder accepts: both adapters return the
    decoder's error and no handler. *)
Lemma decode_error_is_returned_without_handler_witness :
  let bad := String.list_byte_of_string "- path: /a url" in
  YAMLHandler Fixture.yaml_Unmarshal bad Fixture.notFound = (None, Some Fixture.BadYAML)
  ∧ JSONHandler Fixture.json_Unmarshal bad Fixture.notFound = (None, Some Fixture.BadJSON).
Proof.
  intros bad.
  pose proof (decode_error_is_returned_without_handler
                Fixture.yaml_Unmarshal Fixture.json_Unmarshal bad bad Fixture.notFound)
    as (Hy & Hj & _).
  split.
  - apply (Hy []). reflexivity.
  - apply (Hj ∅). reflexivity.
Defined.

(** JSON [{"/a":"X"}] and YAML [[{path: /a, url: X}]]: both handlers
    redirect [/a] to [X]. *)
Lemma JSON_and_YAML_handlers_equivalent_witness :
  ∃ hy hj,
    YAMLHandler Fixture.yaml_Unmarshal
      (String.list_byte_of_string Fixture.yaml_one) Fixture.notFound = (Some hy, None)
    ∧ JSONHandler Fixture.json_Unmarshal
        (String.list_byte_of_string Fixture.json_one) Fixture.notFound = (Some hj, None)
    ∧ hy [] (Fixture.request "/a") = [http.CRedirect (Fixture.request "/a") "X" 302%Z]
    ∧ hj [] (Fixture.request "/a") = [http.CRedirect (Fixture.request "/a") "X" 302%Z].
Proof.
  destruct (JSON_and_YAML_handlers_equivalent
              Fixture.yaml_Unmarshal Fixture.json_Unmarshal "/a" "X"
              (String.list_byte_of_string Fixture.yaml_one)
              (String.list_byte_of_string Fixture.json_one) Fixture.notFound)
    as (hy & hj & Hy & Hj & _ & Hhit & _); [reflexivity | reflexivity |].
  exists hy, hj. split; [exact Hy|]. split; [exact Hj|].
  apply (Hhit [] (Fixture.request "/a")). reflexivity.
Defined.

(** The document [[{url: X}]]: the empty path is a key, and a request with
    an empty path is redirected to [X]. *)
Lemma missing_field_is_merged_as_empty_string_witness :
  let e : gmap string string := {[ "url" := "X" ]} in
  e !! "path" = None
  ∧ "" ∈ dom (buildMap [e])
  ∧ MapHandler (buildMap [e]) Fixture.notFound [] (Fixture.request "")
    = [http.CRedirect (Fixture.request "") "X" 302%Z].
Proof.
  intros e.
  assert (Hp : e !! "path" = None) by reflexivity.
  destruct (missing_field_is_merged_as_empty_string
              Fixture.yaml_Unmarshal
              (String.list_byte_of_string Fixture.yaml_nopath) [] [] e Fixture.notFound)
    as (_ & _ & _ & _ & Hempty); [reflexivity | left; exact Hp |].
  destruct (Hempty Hp) as [Hdom Hredirect].
  split; [exact Hp|]. split; [exact Hdom|].
  apply (Hredirect (Forall_nil_2 _) [] (Fixture.request "")). reflexivity.
Defined.

(** ** The database-backed handler *)

Lemma statusCode_Write (w : http.ResponseWriter) (data : string) :
  http.statusCode w = None →
  http.statusCode (http.Write w data) = Some http.StatusOK.
Proof.
  unfold http.Write. induction w as [|c w IH]; [done|].
  destruct c; simpl; by auto.
Qed.

Lemma redirects_Write (w : http.ResponseWriter) (data : string) :
  http.redirects (http.Write w data) = http.redirects w.
Proof.
  unfold http.redirects, http.Write.
  rewrite List.filter_app. simpl. apply app_nil_r.
Qed.

Section Database.

Context {error : Type} `{EqDecision error}.
Variable Error : error → string.
Context {DB : Type}.
Variable AutoMigrate_Error : DB → option error.
Variable Where_First : DB → urlmap → urlmap * option error.
Variable ErrRecordNotFound : error.

(** The constructor and its closure over the library of this section. *)
Local Abbreviation build := (DBHandler Error AutoMigrate_Error Where_First ErrRecordNotFound).
Local Abbreviation serve := (DBHandler_func Error Where_First ErrRecordNotFound).

(** The condition the closure queries with. *)
Local Abbreviation cond r := {| Shortpath := url.Path (http.URL r); URL := "" |}.

Lemma DBHandler_func_found db F w r dst :
  Where_First db (cond r) = (dst, None) →
  serve db F w r = http.Redirect w r (URL dst) http.StatusMovedPermanently.
Proof. intros Hq. unfold DBHandler_func. by rewrite Hq. Qed.

Lemma DBHandler_func_not_found db F w r dst :
  Where_First db (cond r) = (dst, Some ErrRecordNotFound) →
  serve db F w r = http.ServeHTTP F w r.
Proof.
  intros Hq. unfold DBHandler_func. rewrite Hq. by rewrite decide_True.
Qed.

Lemma DBHandler_func_failed db F w r dst e :
  Where_First db (cond r) = (dst, Some e) → e ≠ ErrRecordNotFound →
  serve db F w r = fmt.Fprintf w ("Unexpected error: " +:+ Error e).
Proof.
  intros Hq Hne. unfold DBHandler_func. rewrite Hq. by rewrite decide_False.
Qed.

(** C6.  When the query fails with an error [e] other than the not-found
    error, the handler adds exactly one [Write] to the response: the text
    [Unexpected error: ] followed by the text of [e], unformatted.  The
    fallback plays no part (the response is the same whatever the
    fallback), no [http.Redirect] is added, and on a response whose header
    was not yet written the status is [StatusOK] (200). *)
Theorem DBHandler_query_error_written_to_body
    (db : DB) (F : http.Handler) (w : http.ResponseWriter) (r : http.Request)
    (dst : urlmap) (e : error) :
  Where_First db (cond r) = (dst, Some e) →
  e ≠ ErrRecordNotFound →
  serve db F w r = w ++ [http.CWrite ("Unexpected error: " +:+ Error e)]
  ∧ (∀ F', serve db F' w r = serve db F w r)
  ∧ http.redirects (serve db F w r) = http.redirects w
  ∧ (http.statusCode w = None →
     http.statusCode (serve db F w r) = Some http.StatusOK).
Proof.
  intros Hq Hne.
  assert (Hw : ∀ F', serve db F' w r
                     = http.Write w ("Unexpected error: " +:+ Error e)).
  { intros F'. by apply (DBHandler_func_failed db F' w r dst). }
  split; [apply Hw|]. split; [intros F'; by rewrite !Hw|].
  rewrite Hw. split; [apply redirects_Write|apply statusCode_Write].
Qed.

(** C7.  When the migration fails with an error [e], construction writes
    one line to the log, [Gorm error: ] and the text of [e], and still
    returns a nil error together with a handler: the same closure over
    [db] and the fallback that a clean migration gives. *)
Theorem DBHandler_schema_failure_logged_not_returned
    (db : DB) (F : http.Handler) (std : log.Logger) (e : error) :
  AutoMigrate_Error db = Some e →
  build db F std
  = ((Some (serve db F), None),
     std ++ [fmt.Sprintln ["Gorm error: "; Error e]]).
Proof. intros Hm. unfold DBHandler. by rewrite Hm. Qed.

(** C10.  Whatever the database handle, the fallback and the outcome of
    the migration, [DBHandler] returns a handler and a nil error. *)
Theorem DBHandler_construction_never_fails
    (db : DB) (F : http.Handler) (std : log.Logger) :
  (build db F std).1 = (Some (serve db F), None)
  ∧ is_Some (build db F std).1.1
  ∧ (build db F std).1.2 = None.
Proof. unfold DBHandler. simpl. by eauto. Qed.

End Database.

(** The database refuses the connection: the handler writes the error text
    to the body, and the status is 200. *)
Lemma DBHandler_query_error_written_to_body_witness :
  let h := DBHandler_func Fixture.Error Fixture.Where_First Fixture.RecordNotFound
             Fixture.table_down Fixture.notFound in
  h [] (Fixture.request "/b")
    = [http.CWrite "Unexpected error: dial tcp: connection refused"]
  ∧ http.statusCode (h [] (Fixture.request "/b")) = Some 200%Z.
Proof.
  intros h.
  destruct (DBHandler_query_error_written_to_body
              Fixture.Error Fixture.Where_First Fixture.RecordNotFound
              Fixture.table_down Fixture.notFound [] (Fixture.request "/b")
              Fixture.zero Fixture.ConnRefused) as (Hbody & _ & _ & Hstatus);
    [reflexivity | discriminate |].
  split; [exact Hbody | apply Hstatus; reflexivity].
Defined.

(** The migration fails for want of a table: one line is logged, and the
    handler comes back with a nil error. *)
Lemma DBHandler_schema_failure_logged_not_returned_witness :
  DBHandler Fixture.Error Fixture.migrate_error Fixture.Where_First
    Fixture.RecordNotFound Fixture.table_unmigrated Fixture.notFound []
  = ((Some (DBHandler_func Fixture.Error Fixture.Where_First Fixture.RecordNotFound
              Fixture.table_unmigrated Fixture.notFound), None),
     [ "Gorm error:  no such table: urlmaps" +:+ String "010"%char "" ]).
Proof.
  apply (DBHandler_schema_failure_logged_not_returned
           Fixture.Error Fixture.migrate_error Fixture.Where_First
           Fixture.RecordNotFound Fixture.table_unmigrated Fixture.notFound []
           Fixture.NoSuchTable).
  reflexivity.
Defined.

(** ** The invariant *)

Lemma MapHandler_redirects_or_delegates (M : gmap string string) (F : http.Handler)
    (w : http.ResponseWriter) (r : http.Request) :
  redirects_or_delegates (MapHandler M F) F w r.
Proof.
  unfold redirects_or_delegates, MapHandler.
  destruct (M !! url.Path (http.URL r)) as [u|]; [left; by eexists _, _ | by right].
Qed.

(** C5, as stated, fails: with a database that refuses the connection, the
    handler [DBHandler] returns neither redirects nor delegates; it writes
    the error to the body. *)
Lemma DBHandler_query_error_neither_redirects_nor_delegates :
  ∃ h, (DBHandler Fixture.Error Fixture.migrate_error Fixture.Where_First
          Fixture.RecordNotFound Fixture.table_down Fixture.notFound []).1.1 = Some h
    ∧ ¬ redirects_or_delegates h Fixture.notFound [] (Fixture.request "/b").
Proof.
  eexists. split; [reflexivity|].
  intros [(u & code & Hr) | Hd]; vm_compute in Hr || vm_compute in Hd; discriminate.
Qed.

Section Invariant.

Context {error : Type} `{EqDecision error}.
Variable Error : error → string.
Variable yamlV2_Unmarshal : list Byte.byte → list (gmap string string) * option error.
Variable json_Unmarshal : list Byte.byte → gmap string string * option error.
Context {DB : Type}.
Variable Where_First : DB → urlmap → urlmap * option error.
Variable ErrRecordNotFound : error.

(** C5, amended.  On every request, a handler made by [MapHandler],
    [YAMLHandler] or [JSONHandler] either redirects or delegates to its
    fallback; the closure of [DBHandler] either redirects, or delegates, or,
    when the query fails with an error other than not-found, writes the
    diagnostic text.  No variant answers a miss itself: when the path is not
    a key of the map, and when the query ends with the not-found error, the
    response is the fallback's. *)
Theorem handlers_redirect_delegate_or_report_query_error
    (M : gmap string string) (yaml jsonData : list Byte.byte) (db : DB)
    (F : http.Handler) (w : http.ResponseWriter) (r : http.Request) :
  let query := Where_First db {| Shortpath := url.Path (http.URL r); URL := "" |} in
  let serve := DBHandler_func Error Where_First ErrRecordNotFound db F in
  redirects_or_delegates (MapHandler M F) F w r
  ∧ (∀ h, (YAMLHandler yamlV2_Unmarshal yaml F).1 = Some h →
          redirects_or_delegates h F w r)
  ∧ (∀ h, (JSONHandler json_Unmarshal jsonData F).1 = Some h →
          redirects_or_delegates h F w r)
  ∧ (redirects_or_delegates serve F w r
     ∨ ∃ e, query.2 = Some e ∧ e ≠ ErrRecordNotFound
            ∧ serve w r = fmt.Fprintf w ("Unexpected error: " +:+ Error e))
  ∧ (M !! url.Path (http.URL r) = None → MapHandler M F w r = http.ServeHTTP F w r)
  ∧ (query.2 = Some ErrRecordNotFound → serve w r = http.ServeHTTP F w r).
Proof.
  intros query serve.
  split; [apply MapHandler_redirects_or_delegates|].
  split.
  { intros h. unfold YAMLHandler.
    destruct (parseYAML _ _) as [l [e|]]; simpl; [done|].
    intros [= <-]. apply MapHandler_redirects_or_delegates. }
  split.
  { intros h. unfold JSONHandler.
    destruct (parseJSON _ _) as [m [e|]]; simpl; [done|].
    intros [= <-]. apply MapHandler_redirects_or_delegates. }
  split; [|split].
  - destruct query as [dst [e|]] eqn:Hq; subst query.
    + destruct (decide (e = ErrRecordNotFound)) as [->|Hne].
      * left. right. by apply (DBHandler_func_not_found _ _ _ _ _ _ _ dst).
      * right. exists e. split; [done|]. split; [done|].
        by apply (DBHandler_func_failed _ _ _ _ _ _ _ dst).
    + left. left. exists (URL dst), http.StatusMovedPermanently.
      by apply DBHandler_func_found.
  - intros Hnone. unfold MapHandler. by rewrite Hnone.
  - destruct query as [dst oe] eqn:Hq; subst query. simpl. intros ->.
    by apply (DBHandler_func_not_found _ _ _ _ _ _ _ dst).
Qed.

End Invariant.

(** The invariant at the stand-ins: the map handler and the database handler
    forward a miss to the 404 fallback. *)
Lemma handlers_redirect_delegate_or_report_query_error_witness :
  MapHandler {[ "/go" := "https://go.dev" ]} Fixture.notFound [] (Fixture.request "/rust")
    = [http.CWriteHeader 404%Z; http.CWrite "404 page not found"]
  ∧ DBHandler_func Fixture.Error Fixture.Where_First Fixture.RecordNotFound
      Fixture.table_b Fixture.notFound [] (Fixture.request "/rust")
    = [http.CWriteHeader 404%Z; http.CWrite "404 page not found"].
Proof.
  destruct (handlers_redirect_delegate_or_report_query_error
              Fixture.Error Fixture.yaml_Unmarshal Fixture.json_Unmarshal
              Fixture.Where_First Fixture.RecordNotFound
              {[ "/go" := "https://go.dev" ]} [] [] Fixture.table_b
              Fixture.notFound [] (Fixture.request "/rust"))
    as (_ & _ & _ & _ & Hmap & Hdb).
  split; [apply Hmap; reflexivity | apply Hdb; reflexivity].
Defined.

(** ** Further properties of the merge *)

(** The loop started from a map [m] lays the document over [m]. *)
Lemma buildMap_loop_union (m : gmap string string) (l : list (gmap string string)) :
  buildMap_loop m l = buildMap l ∪ m.
Proof.
  apply map_eq. intros p. unfold buildMap.
  rewrite lookup_union, !buildMap_loop_lookup, lookup_empty.
  by destruct (last_url p (decode_record <$> l)), (m !! p).
Qed.

Lemma buildMap_snoc (l : list (gmap string string)) (e : gmap string string) :
  buildMap (l ++ [e]) = <[index e "path" := index e "url"]> (buildMap l).
Proof. unfold buildMap. by rewrite buildMap_loop_app. Qed.

Lemma buildMap_lookup_is_Some (l : list (gmap string string)) (p : string) :
  is_Some (buildMap l !! p) ↔ p ∈ paths l.
Proof.
  induction l as [|e l IH] using rev_ind.
  - unfold buildMap, paths. simpl. rewrite lookup_empty, elem_of_nil.
    split; [by intros [? ?]|done].
  - rewrite buildMap_snoc. unfold paths in *. rewrite fmap_app, elem_of_app. simpl.
    rewrite list_elem_of_singleton.
    destruct (decide (index e "path" = p)) as [<-|Hne].
    + rewrite lookup_insert_eq. split; [by right|by eexists].
    + rewrite lookup_insert_ne by done. rewrite IH.
      split; [by left | by intros [?|?]].
Qed.

Lemma buildMap_dom_paths (l : list (gmap string string)) :
  dom (buildMap l) = list_to_set (paths l).
Proof.
  apply set_eq. intros p.
  rewrite elem_of_dom, buildMap_lookup_is_Some, elem_of_list_to_set. done.
Qed.

(** X1.  The keys of the mapping [buildMap] returns are exactly the paths
    of the entries: no entry is dropped and no key is made up. *)
Theorem buildMap_dom (parsedYaml : list (gmap string string)) :
  dom (buildMap parsedYaml) = list_to_set (paths parsedYaml)
  ∧ ∀ p, p ∈ dom (buildMap parsedYaml) ↔ ∃ e, e ∈ parsedYaml ∧ index e "path" = p.
Proof.
  split; [apply buildMap_dom_paths|].
  intros p. rewrite buildMap_dom_paths, elem_of_list_to_set.
  unfold paths. rewrite list_elem_of_fmap. split.
  - intros (e & -> & He). by exists e.
  - intros (e & He & <-). by exists e.
Qed.

(** X2.  The mapping has at most one key per entry, and exactly one per
    entry when no two entries share a path. *)
Theorem buildMap_size (parsedYaml : list (gmap string string)) :
  (size (buildMap parsedYaml) ≤ length parsedYaml)%nat
  ∧ (NoDup (paths parsedYaml) → size (buildMap parsedYaml) = length parsedYaml).
Proof.
  split.
  - induction parsedYaml as [|e l IH] using rev_ind;
      [unfold buildMap; simpl; by rewrite map_size_empty|].
    rewrite buildMap_snoc, length_app. simpl.
    destruct (buildMap l !! index e "path") as [u|] eqn:Hl.
    + rewrite map_size_insert_Some by done. lia.
    + rewrite map_size_insert_None by done. lia.
  - intros Hnd. rewrite <- size_dom, buildMap_dom_paths, size_list_to_set by done.
    unfold paths. by rewrite length_fmap.
Qed.

(** X3.  Building from two documents put one after the other gives the
    mapping of the second laid over the mapping of the first: where both
    have a path, the second document's url stands. *)
Theorem buildMap_app (l1 l2 : list (gmap string string)) :
  buildMap (l1 ++ l2) = buildMap l2 ∪ buildMap l1.
Proof.
  unfold buildMap at 1. rewrite buildMap_loop_app.
  fold (buildMap l1). apply buildMap_loop_union.
Qed.

(** Without duplicate paths, what the mapping holds is what some entry
    says. *)
Lemma buildMap_lookup_NoDup (l : list (gmap string string)) (p u : string) :
  NoDup (paths l) →
  buildMap l !! p = Some u ↔
  ∃ e, e ∈ l ∧ index e "path" = p ∧ index e "url" = u.
Proof.
  induction l as [|e l IH] using rev_ind; intros Hnd.
  - unfold buildMap. simpl. rewrite lookup_empty.
    split; [done|]. intros (e & He & _). by apply elem_of_nil in He.
  - unfold paths in Hnd. rewrite fmap_app in Hnd. simpl in Hnd.
    apply NoDup_app in Hnd as (Hl & Hfresh & _). fold (paths l) in Hl, Hfresh.
    rewrite buildMap_snoc.
    destruct (decide (index e "path" = p)) as [<-|Hne].
    + rewrite lookup_insert_eq. split.
      * intros [= <-]. exists e. split; [|done]. apply elem_of_app. right.
        by apply list_elem_of_singleton.
      * intros (e' & [He'|He']%elem_of_app & Hp & Hu).
        -- exfalso. apply (Hfresh (index e "path")).
           ++ rewrite <- Hp.
              by apply (list_elem_of_fmap_2 (λ entry, index entry "path")).
           ++ by apply list_elem_of_singleton.
        -- apply list_elem_of_singleton in He' as ->. by rewrite Hu.
    + rewrite lookup_insert_ne by done. rewrite (IH Hl). split.
      * intros (e' & He' & Hp & Hu). exists e'. split; [|done].
        apply elem_of_app. by left.
      * intros (e' & [He'|He']%elem_of_app & Hp & Hu); [by exists e'|].
        apply list_elem_of_singleton in He' as ->. done.
Qed.

(** X4.  When no two entries share a path, the order of the entries does
    not matter: a document and any reordering of it build the same
    mapping. *)
Theorem buildMap_Permutation (l l' : list (gmap string string)) :
  NoDup (paths l) → l ≡ₚ l' → buildMap l = buildMap l'.
Proof.
  intros Hnd Hperm.
  assert (Hnd' : NoDup (paths l')).
  { unfold paths in *. by rewrite <- Hperm. }
  apply map_eq. intros p. apply option_eq. intros u.
  rewrite !buildMap_lookup_NoDup by done.
  split; intros (e & He & Hpu); exists e; (split; [|done]).
  - by rewrite <- Hperm.
  - by rewrite Hperm.
Qed.

(** X5.  [buildMap] reads only [entry["path"]] and [entry["url"]]: two
    documents whose entries agree on these two reads, entry by entry, build
    the same mapping, whatever other fields the entries carry and whether a
    field is missing or present and empty. *)
Theorem buildMap_reads_path_and_url_only (l l' : list (gmap string string)) :
  Forall2 (λ e e', index e "path" = index e' "path"
                   ∧ index e "url" = index e' "url") l l' →
  buildMap l = buildMap l'.
Proof.
  intros Hagree. unfold buildMap. rewrite !buildMap_loop_fold. f_equal.
  induction Hagree as [|e e' l l' [Hp Hu] _ IH]; [done|].
  rewrite !fmap_cons, IH. f_equal. unfold decode_record. by rewrite Hp, Hu.
Qed.

Lemma paths_entry_of (kvs : list (string * string)) :
  paths (entry_of <$> kvs) = kvs.*1.
Proof.
  unfold paths. rewrite <- list_fmap_compose. apply list_fmap_ext.
  intros _ [k v] _. simpl. unfold index, entry_of. simpl. by rewrite lookup_insert_eq.
Qed.

(** Listing the pairs of a mapping as entries, in any order, and building
    gives the mapping back. *)
Lemma buildMap_entry_of (M : gmap string string) (kvs : list (string * string)) :
  kvs ≡ₚ map_to_list M → buildMap (entry_of <$> kvs) = M.
Proof.
  intros Hperm. apply map_eq. intros p. apply option_eq. intros u.
  rewrite buildMap_lookup_NoDup.
  - rewrite <- elem_of_map_to_list, <- Hperm. split.
    + intros (e & [[k v] [-> Hkv]]%list_elem_of_fmap_1 & Hp & Hu).
      unfold index, entry_of in Hp, Hu. simpl in Hp, Hu.
      rewrite lookup_insert_eq in Hp.
      rewrite lookup_insert_ne, lookup_singleton_eq in Hu by done.
      simpl in Hp, Hu. by subst.
    + intros Hkv. exists (entry_of (p, u)). split; [by apply list_elem_of_fmap_2|].
      unfold index, entry_of. simpl.
      by rewrite lookup_insert_eq, lookup_insert_ne, lookup_singleton_eq.
  - rewrite paths_entry_of, Hperm. apply NoDup_fst_map_to_list.
Qed.

(** ** Further properties of the handlers *)

(** X7.  A map handler whose fallback is a second map handler answers as
    one map handler over the union of the two maps in which the first map
    wins: chaining gives the first map precedence. *)
Theorem MapHandler_chain_is_union (M1 M2 : gmap string string) (F : http.Handler)
    (w : http.ResponseWriter) (r : http.Request) :
  MapHandler M1 (MapHandler M2 F) w r = MapHandler (M1 ∪ M2) F w r.
Proof.
  unfold MapHandler. simpl. rewrite lookup_union.
  by destruct (M1 !! _), (M2 !! _).
Qed.

Section MoreAdapters.

Context {error : Type}.
Variable yamlV2_Unmarshal : list Byte.byte → list (gmap string string) * option error.
Variable json_Unmarshal : list Byte.byte → gmap string string * option error.

(** X8.  An empty source maps nothing: the handler over an empty map, the
    handler [YAMLHandler] returns for a document that decodes to the empty
    sequence, and the handler [JSONHandler] returns for one that decodes to
    the empty object, all hand every request to the fallback. *)
Theorem empty_source_always_delegates (yaml jsonData : list Byte.byte)
    (F : http.Handler) :
  yamlV2_Unmarshal yaml = ([], None) →
  json_Unmarshal jsonData = (∅, None) →
  ∃ hy hj,
    YAMLHandler yamlV2_Unmarshal yaml F = (Some hy, None)
    ∧ JSONHandler json_Unmarshal jsonData F = (Some hj, None)
    ∧ ∀ w r, MapHandler ∅ F w r = http.ServeHTTP F w r
             ∧ hy w r = http.ServeHTTP F w r
             ∧ hj w r = http.ServeHTTP F w r.
Proof.
  intros Hy Hj. eexists _, _.
  split; [by apply YAMLHandler_ok|]. split; [by apply JSONHandler_ok|].
  intros w r. unfold buildMap, MapHandler. simpl. by rewrite lookup_empty.
Qed.

(** X9.  The handler [YAMLHandler] returns, seen from the document: a
    request whose path is the path of some entry is redirected, with
    [StatusFound], to the url of the last entry with that path; a request
    whose path is the path of no entry goes to the fallback. *)
Theorem YAMLHandler_serves_last_entry (yaml : list Byte.byte)
    (l : list (gmap string string)) (F : http.Handler) :
  yamlV2_Unmarshal yaml = (l, None) →
  ∃ h, YAMLHandler yamlV2_Unmarshal yaml F = (Some h, None)
    ∧ ∀ w r,
        let p := url.Path (http.URL r) in
        (p ∈ paths l →
         ∃ u, last_url p (decode_record <$> l) = Some u
              ∧ h w r = http.Redirect w r u http.StatusFound)
        ∧ (p ∉ paths l → h w r = http.ServeHTTP F w r).
Proof.
  intros Hy. eexists. split; [by apply YAMLHandler_ok|].
  intros w r p. unfold MapHandler. fold p.
  assert (Hlook : buildMap l !! p = last_url p (decode_record <$> l)).
  { unfold buildMap. rewrite buildMap_loop_lookup. by destruct (last_url _ _). }
  split.
  - intros [u Hu]%buildMap_lookup_is_Some. exists u. rewrite <- Hlook.
    split; [done|]. by rewrite Hu.
  - intros Hnot. destruct (buildMap l !! p) as [u|] eqn:Hu; [|done].
    exfalso. apply Hnot, buildMap_lookup_is_Some. by eexists.
Qed.

(** X6.  For every JSON object, the YAML document that lists its pairs as
    [{path, url}] entries, in any order, gives an equivalent handler: the
    two handlers answer every request alike. *)
Theorem JSON_object_listed_as_YAML_same_handler (M : gmap string string)
    (kvs : list (string * string)) (yaml jsonData : list Byte.byte)
    (F : http.Handler) :
  yamlV2_Unmarshal yaml = (entry_of <$> kvs, None) →
  json_Unmarshal jsonData = (M, None) →
  kvs ≡ₚ map_to_list M →
  ∃ hy hj,
    YAMLHandler yamlV2_Unmarshal yaml F = (Some hy, None)
    ∧ JSONHandler json_Unmarshal jsonData F = (Some hj, None)
    ∧ ∀ w r, hy w r = hj w r.
Proof.
  intros Hy Hj Hperm. eexists _, _.
  split; [by apply YAMLHandler_ok|]. split; [by apply JSONHandler_ok|].
  intros w r. by rewrite (buildMap_entry_of M kvs Hperm).
Qed.

End MoreAdapters.

Section MoreDatabase.

Context {error : Type} `{EqDecision error}.
Variable Error : error → string.
Context {DB : Type}.
Variable AutoMigrate_Error : DB → option error.
Variable Where_First : DB → urlmap → urlmap * option error.
Variable ErrRecordNotFound : error.

(** X11.  Construction leaves the log as it was exactly when the migration
    reported no error; it never removes or rewrites a line already logged;
    and the handler and the error it returns do not depend on what the log
    held. *)
Theorem DBHandler_logs_only_on_migration_error
    (db : DB) (F : http.Handler) (std : log.Logger) :
  let build := DBHandler Error AutoMigrate_Error Where_First ErrRecordNotFound in
  ((build db F std).2 = std ↔ AutoMigrate_Error db = None)
  ∧ std `prefix_of` (build db F std).2
  ∧ ∀ std', (build db F std').1 = (build db F std).1.
Proof.
  intros build. unfold build, DBHandler.
  destruct (AutoMigrate_Error db) as [e|]; simpl.
  - split; [|split; [by eexists|done]]. split; [|done].
    unfold log.Println. intros Heq. apply (f_equal length) in Heq.
    rewrite length_app in Heq. simpl in Heq. lia.
  - split; [done|]. split; [done|done].
Qed.

End MoreDatabase.

(** ** The further properties at sample documents *)

Lemma buildMap_size_witness : size (buildMap Sample.two_entries) = 2%nat.
Proof.
  apply (buildMap_size Sample.two_entries).
  apply (bool_decide_unpack _). vm_compute. reflexivity.
Defined.

Lemma buildMap_Permutation_witness :
  buildMap Sample.two_entries = buildMap (reverse Sample.two_entries).
Proof.
  apply (buildMap_Permutation Sample.two_entries (reverse Sample.two_entries)).
  - apply (bool_decide_unpack _). vm_compute. reflexivity.
  - apply perm_swap.
Defined.

Lemma buildMap_reads_path_and_url_only_witness :
  buildMap Sample.two_entries
  = buildMap [ {[ "path" := "/a"; "url" := "X" ]}; {[ "path" := "/b"; "url" := "Z" ]} ].
Proof.
  apply (buildMap_reads_path_and_url_only Sample.two_entries).
  repeat constructor; reflexivity.
Defined.

Lemma empty_source_always_delegates_witness :
  ∃ hy hj,
    YAMLHandler Sample.yaml_Unmarshal (String.list_byte_of_string "[]") Fixture.notFound
      = (Some hy, None)
    ∧ JSONHandler Sample.json_Unmarshal (String.list_byte_of_string "{}") Fixture.notFound
      = (Some hj, None)
    ∧ hy [] (Fixture.request "/a") = [http.CWriteHeader 404%Z; http.CWrite "404 page not found"]
    ∧ hj [] (Fixture.request "/a") = [http.CWriteHeader 404%Z; http.CWrite "404 page not found"].
Proof.
  destruct (empty_source_always_delegates
              Sample.yaml_Unmarshal Sample.json_Unmarshal
              (String.list_byte_of_string "[]") (String.list_byte_of_string "{}")
              Fixture.notFound) as (hy & hj & Hy & Hj & Hserve);
    [reflexivity | reflexivity |].
  exists hy, hj. split; [exact Hy|]. split; [exact Hj|].
  exact (proj2 (Hserve [] (Fixture.request "/a"))).
Defined.

Lemma YAMLHandler_serves_last_entry_witness :
  ∃ h, YAMLHandler Fixture.yaml_Unmarshal
         (String.list_byte_of_string Fixture.yaml_dup) Fixture.notFound = (Some h, None)
    ∧ h [] (Fixture.request "/a") = [http.CRedirect (Fixture.request "/a") "Y" 302%Z]
    ∧ h [] (Fixture.request "/c") = [http.CWriteHeader 404%Z; http.CWrite "404 page not found"].
Proof.
  destruct (YAMLHandler_serves_last_entry Fixture.yaml_Unmarshal
              (String.list_byte_of_string Fixture.yaml_dup)
              [ {[ "path" := "/a"; "url" := "X" ]}; {[ "path" := "/a"; "url" := "Y" ]} ]
              Fixture.notFound) as (h & Hh & Hserve); [reflexivity|].
  exists h. split; [exact Hh|]. split.
  - destruct (Hserve [] (Fixture.request "/a")) as [Hhit _].
    destruct Hhit as (u & Hu & Hr).
    + apply (bool_decide_unpack _). vm_compute. reflexivity.
    + injection Hu as <-. exact Hr.
  - apply (Hserve [] (Fixture.request "/c")).
    apply (bool_decide_unpack _). vm_compute. reflexivity.
Defined.

Lemma JSON_object_listed_as_YAML_same_handler_witness :
  ∃ hy hj,
    YAMLHandler Fixture.yaml_Unmarshal
      (String.list_byte_of_string Fixture.yaml_one) Fixture.notFound = (Some hy, None)
    ∧ JSONHandler Fixture.json_Unmarshal
        (String.list_byte_of_string Fixture.json_one) Fixture.notFound = (Some hj, None)
    ∧ ∀ w r, hy w r = hj w r.
Proof.
  apply (JSON_object_listed_as_YAML_same_handler
           Fixture.yaml_Unmarshal Fixture.json_Unmarshal
           {[ "/a" := "X" ]} [ ("/a", "X") ]); [reflexivity | reflexivity |].
  rewrite map_to_list_singleton. reflexivity.
Defined.

(** ** The database-backed handler over gorm's struct condition *)

(** The condition the closure builds has an empty [URL]; with a non-empty
    path it compares the short path and nothing else. *)
Lemma gorm_matches_path (p : string) (row : urlmap) :
  p ≠ "" →
  gorm.matches {| Shortpath := p; URL := "" |} row = bool_decide (Shortpath row = p).
Proof.
  intros Hp. unfold gorm.matches. simpl.
  rewrite (bool_decide_eq_false_2 (p = "")) by done.
  simpl. apply andb_true_r.
Qed.

(** With an empty path it compares nothing: every row matches. *)
Lemma gorm_matches_empty (row : urlmap) :
  gorm.matches {| Shortpath := ""; URL := "" |} row = true.
Proof. reflexivity. Qed.

Lemma find_path_unique (p : string) (rows : list urlmap) (row : urlmap) :
  NoDup (Shortpath <$> rows) → row ∈ rows → Shortpath row = p →
  List.find (λ row', bool_decide (Shortpath row' = p)) rows = Some row.
Proof.
  intros Hnd Hin Hp. induction rows as [|row0 rows IH]; [by apply elem_of_nil in Hin|].
  rewrite fmap_cons in Hnd. apply NoDup_cons in Hnd as [Hfresh Hnd].
  simpl. apply elem_of_cons in Hin as [->|Hin].
  - by rewrite bool_decide_eq_true_2.
  - rewrite bool_decide_eq_false_2; [by apply IH|].
    intros Heq. apply Hfresh. rewrite Heq, <- Hp.
    by apply (list_elem_of_fmap_2 Shortpath).
Qed.

Lemma find_path_none (p : string) (rows : list urlmap) :
  Forall (λ row, Shortpath row ≠ p) rows →
  List.find (λ row', bool_decide (Shortpath row' = p)) rows = None.
Proof.
  induction 1 as [|row rows Hne _ IH]; [done|].
  simpl. by rewrite bool_decide_eq_false_2.
Qed.

Lemma find_ext {A} (f g : A → bool) (l : list A) :
  (∀ x, f x = g x) → List.find f l = List.find g l.
Proof.
  intros Hfg. induction l as [|x l IH]; [done|]. simpl. by rewrite Hfg, IH.
Qed.

(** C2, a defect of the code.  The closure queries with the struct
    condition [urlmap{Shortpath: r.URL.Path}].  When the request path is
    empty the condition has no non-zero field, gorm compares nothing, and
    the query returns the first row of the table: the handler redirects,
    with [StatusMovedPermanently], to that row's url, whatever its short
    path is.  The claim has the fallback invoked when no row has the
    request path as its short path. *)
Theorem DBHandler_empty_path_redirects_to_first_row
    (db : Fixture.DB) (row : urlmap) (rest : list urlmap) (F : http.Handler)
    (w : http.ResponseWriter) (r : http.Request) :
  Fixture.query_error db = None →
  Fixture.rows db = row :: rest →
  url.Path (http.URL r) = "" →
  DBHandler_func Fixture.Error gorm.Where_First Fixture.RecordNotFound db F w r
  = http.Redirect w r (URL row) http.StatusMovedPermanently.
Proof.
  intros Hq Hrows Hpath.
  apply (DBHandler_func_found _ _ _ _ _ _ _ row).
  unfold gorm.Where_First. rewrite Hq, Hrows, Hpath.
  cbn [List.find]. by rewrite gorm_matches_empty.
Qed.

(** The table holds the one row [{shortpath: /b, url: Z}], so no row has an
    empty short path; a request with an empty path is still redirected to
    [Z], where the fallback would have answered 404. *)
Lemma DBHandler_empty_path_redirects_to_first_row_witness :
  Forall (λ row, Shortpath row ≠ "") (Fixture.rows Fixture.table_b)
  ∧ DBHandler_func Fixture.Error gorm.Where_First Fixture.RecordNotFound
      Fixture.table_b Fixture.notFound [] (Fixture.request "")
    = [http.CRedirect (Fixture.request "") "Z" 301%Z]
  ∧ http.ServeHTTP Fixture.notFound [] (Fixture.request "")
    = [http.CWriteHeader 404%Z; http.CWrite "404 page not found"].
Proof.
  split; [by repeat constructor|]. split; [|reflexivity].
  apply (DBHandler_empty_path_redirects_to_first_row
           Fixture.table_b {| Shortpath := "/b"; URL := "Z" |} []
           Fixture.notFound [] (Fixture.request "")); reflexivity.
Defined.

(** X12.  Over gorm's struct condition, a request with a non-empty path is
    matched on the short path exactly: when the query meets no error and
    the short paths of the table are unique, a row whose short path is the
    request path makes the handler redirect, with [StatusMovedPermanently],
    to that row's url; and when no row has the request path as its short
    path, the handler's result is the fallback's on the same response and
    request. *)
Theorem DBHandler_nonempty_path_exact_match
    (db : Fixture.DB) (F : http.Handler)
    (w : http.ResponseWriter) (r : http.Request) :
  let p := url.Path (http.URL r) in
  let h := DBHandler_func Fixture.Error gorm.Where_First Fixture.RecordNotFound db F in
  Fixture.query_error db = None →
  p ≠ "" →
  (∀ row, NoDup (Shortpath <$> Fixture.rows db) →
          row ∈ Fixture.rows db → Shortpath row = p →
          h w r = http.Redirect w r (URL row) http.StatusMovedPermanently)
  ∧ (Forall (λ row, Shortpath row ≠ p) (Fixture.rows db) →
     h w r = http.ServeHTTP F w r).
Proof.
  intros p h Hq Hp.
  assert (Hfind : List.find (gorm.matches {| Shortpath := p; URL := "" |}) (Fixture.rows db)
                  = List.find (λ row', bool_decide (Shortpath row' = p)) (Fixture.rows db)).
  { apply find_ext. intros row. by apply gorm_matches_path. }
  split.
  - intros row Hnd Hin Hrow. unfold h.
    apply (DBHandler_func_found _ _ _ _ _ _ _ row).
    unfold gorm.Where_First. fold p. rewrite Hq, Hfind.
    by rewrite (find_path_unique p _ row).
  - intros Hnone. unfold h.
    apply (DBHandler_func_not_found _ _ _ _ _ _ _ Fixture.zero).
    unfold gorm.Where_First. fold p. rewrite Hq, Hfind.
    by rewrite find_path_none.
Qed.

(** Over the table with the row [{shortpath: /b, url: Z}]: [/b] is
    redirected to [Z] with 301 and [/missing] gets the fallback's 404. *)
Lemma DBHandler_nonempty_path_exact_match_witness :
  DBHandler_func Fixture.Error gorm.Where_First Fixture.RecordNotFound
    Fixture.table_b Fixture.notFound [] (Fixture.request "/b")
  = [http.CRedirect (Fixture.request "/b") "Z" 301%Z]
  ∧ DBHandler_func Fixture.Error gorm.Where_First Fixture.RecordNotFound
      Fixture.table_b Fixture.notFound [] (Fixture.request "/missing")
    = [http.CWriteHeader 404%Z; http.CWrite "404 page not found"].
Proof.
  split.
  - destruct (DBHandler_nonempty_path_exact_match
                Fixture.table_b Fixture.notFound [] (Fixture.request "/b"))
      as [Hfound _]; [reflexivity | discriminate |].
    apply (Hfound {| Shortpath := "/b"; URL := "Z" |}).
    + apply (bool_decide_unpack _). vm_compute. reflexivity.
    + apply list_elem_of_here.
    + reflexivity.
  - destruct (DBHandler_nonempty_path_exact_match
                Fixture.table_b Fixture.notFound [] (Fixture.request "/missing"))
      as [_ Hmiss]; [reflexivity | discriminate |].
    apply Hmiss. repeat constructor. discriminate.
Defined.
